(** * react-chatgpt-apps: the external-store bridge of [src/hooks.ts]

    A shallow embedding of [useOpenAiGlobal] (its [subscribe] and
    [getSnapshot] arguments to [useSyncExternalStore]) and of [refreshTool],
    over an explicit model of the browser state they touch: the host object
    [window.openai], the window's listener list for the set-globals event,
    and a trace of the calls the library makes to the outside. *)

From stdpp Require Import gmap strings list.

(** ** Values *)

(** JavaScript values as far as this library can tell them apart.  Structured
    host payloads are opaque references: the library never looks inside them,
    and [===] on them is equality of the reference. *)
Inductive JsValue : Type :=
| VUndefined
| VNull
| VBool (b : bool)
| VNum (n : Z)
| VStr (s : string)
| VObj (ref : nat)
| VError (name msg : string).

#[global] Instance JsValue_eq_dec : EqDecision JsValue.
Proof. solve_decision. Defined.

(** [value === undefined] *)
Definition is_undefined (v : JsValue) : bool :=
  match v with VUndefined => true | _ => false end.

(** A plain object, as its own properties.  Reading a property that is not
    there gives [undefined]. *)
Definition get_prop (o : gmap string JsValue) (p : string) : JsValue :=
  default VUndefined (o !! p).

(** [keyof OpenAiGlobals], from the type given in the README. *)
Inductive Key : Type :=
| theme | userAgent | locale | maxHeight | displayMode | safeArea
| toolInput | toolOutput | toolResponseMetadata | widgetState.

#[global] Instance Key_eq_dec : EqDecision Key.
Proof. solve_decision. Defined.

Definition key_name (k : Key) : string :=
  match k with
  | theme => "theme"
  | userAgent => "userAgent"
  | locale => "locale"
  | maxHeight => "maxHeight"
  | displayMode => "displayMode"
  | safeArea => "safeArea"
  | toolInput => "toolInput"
  | toolOutput => "toolOutput"
  | toolResponseMetadata => "toolResponseMetadata"
  | widgetState => "widgetState"
  end.

(** [SetGlobalsEvent]: [event.detail.globals] is a partial [OpenAiGlobals]. *)
Record Detail : Type := { globals : gmap string JsValue }.
Record SetGlobalsEvent : Type := { detail : Detail }.

(** ** The host object *)

(** What a promise comes to. *)
Inductive Settled : Type :=
| Fulfilled (v : JsValue)
| Rejected (reason : JsValue)
| Pending.

(** What calling a host method does: it throws, or it returns a promise. *)
Inductive HostResult : Type :=
| Throws (e : JsValue)
| Returns (p : Settled).

(** The host's [callTool(name, args)]: its result, and the state bag as the
    host leaves it. *)
Definition HostCallTool : Type :=
  string → gmap string JsValue → gmap string JsValue →
  HostResult * gmap string JsValue.

(** [window.openai]: the global state bag and the [callTool] method. *)
Record OpenAi : Type := {
  bag : gmap string JsValue;
  callTool : option HostCallTool
}.

(** ** The window *)

(** A [handleSetGlobal] closure: its identity, and the [key] and [onChange]
    it captured. *)
Record Listener : Type := {
  l_id : nat;
  l_key : Key;
  l_onChange : nat
}.

#[global] Instance Listener_eq_dec : EqDecision Listener.
Proof. solve_decision. Defined.

(** Calls that leave the library. *)
Inductive Obs : Type :=
| Notify (listener onChange : nat)
| CallTool (name : string) (args : gmap string JsValue).

(** The window: [window.openai] ([None] when the host has not installed
    it), the listeners registered for the set-globals event in registration
    order, the next closure identity, and the calls made so far. *)
Record World : Type := {
  openai : option OpenAi;
  listeners : list Listener;
  next_closure : nat;
  trace : list Obs
}.

Definition set_openai (o : option OpenAi) (w : World) : World :=
  {| openai := o; listeners := listeners w;
     next_closure := next_closure w; trace := trace w |}.

Definition set_listeners (ls : list Listener) (w : World) : World :=
  {| openai := openai w; listeners := ls;
     next_closure := next_closure w; trace := trace w |}.

Definition emit (o : Obs) (w : World) : World :=
  {| openai := openai w; listeners := listeners w;
     next_closure := next_closure w; trace := trace w ++ [o] |}.

(** ** A state monad over the window *)

Definition M (A : Type) : Type := World → A * World.

#[global] Instance M_ret : MRet M := λ A a w, (a, w).
#[global] Instance M_bind : MBind M := λ A B f m w,
  let '(a, w1) := m w in f a w1.

Definition read {A : Type} (f : World → A) : M A := λ w, (f w, w).
Definition modify (f : World → World) : M unit := λ w, (tt, f w).

(** A fresh closure. *)
Definition new_closure : M nat := λ w,
  (next_closure w,
   {| openai := openai w; listeners := listeners w;
      next_closure := S (next_closure w); trace := trace w |}).

(** How a synchronous call ends. *)
Inductive Completion (A : Type) : Type :=
| Normal (a : A)
| Throw (e : JsValue).
Arguments Normal {A} a.
Arguments Throw {A} e.

Definition TypeError (msg : string) : JsValue := VError "TypeError" msg.

(** ** hooks.ts *)

(** [onChange()] *)
Definition call_onChange (l : Listener) : M unit :=
  modify (emit (Notify (l_id l) (l_onChange l))).

(** [handleSetGlobal], lines 13-20. *)
Definition handleSetGlobal (l : Listener) (event : SetGlobalsEvent) : M unit :=
  let value := get_prop (globals (detail event)) (key_name (l_key l)) in
  if is_undefined value then mret tt
  else call_onChange l.

(** [window.addEventListener(SET_GLOBALS_EVENT_TYPE, h, { passive: true })]:
    a callback that is already registered is not registered twice. *)
Definition addEventListener (l : Listener) : M unit :=
  modify (λ w,
    if bool_decide (l_id l ∈ l_id <$> listeners w) then w
    else set_listeners (listeners w ++ [l]) w).

(** [window.removeEventListener(SET_GLOBALS_EVENT_TYPE, h)] *)
Definition removeEventListener (h : nat) : M unit :=
  modify (λ w,
    set_listeners (filter (λ l, l_id l ≠ h) (listeners w)) w).

(** The first argument of [useSyncExternalStore], lines 12-29.  The result
    stands for the closure returned at line 26, which captures
    [handleSetGlobal]. *)
Definition subscribe (key : Key) (onChange : nat) : M nat :=
  h ← new_closure;
  addEventListener {| l_id := h; l_key := key; l_onChange := onChange |};;
  mret h.

(** The closure returned by [subscribe], lines 26-28. *)
Definition unsubscribe (h : nat) : M unit :=
  removeEventListener h.

(** The second argument of [useSyncExternalStore], line 30:
    [window.openai[key]]. *)
Definition getSnapshot (key : Key) : M (Completion JsValue) :=
  o ← read openai;
  match o with
  | None =>
      mret (Throw (TypeError "Cannot read properties of undefined"))
  | Some host => mret (Normal (get_prop (bag host) (key_name key)))
  end.

(** [refreshTool], lines 46-48: [await window.openai?.callTool(name, args)].
    The result is what the promise of the async function comes to. *)
Definition refreshTool (name : string) (args : gmap string JsValue)
  : M Settled :=
  o ← read openai;
  match o with
  | None => mret (Fulfilled VUndefined)
  | Some host =>
      match callTool host with
      | None =>
          mret (Rejected (TypeError "window.openai.callTool is not a function"))
      | Some f =>
          modify (emit (CallTool name args));;
          let '(r, bag') := f name args (bag host) in
          modify (set_openai (Some {| bag := bag'; callTool := callTool host |}));;
          match r with
          | Throws e => mret (Rejected e)
          | Returns (Fulfilled _) => mret (Fulfilled VUndefined)
          | Returns (Rejected e) => mret (Rejected e)
          | Returns Pending => mret Pending
          end
      end
  end.

(** [window.dispatchEvent(event)] for a set-globals event: every registered
    listener runs, in registration order. *)
Definition dispatchEvent (event : SetGlobalsEvent) : M unit := λ w,
  (tt, foldl (λ w' l, snd (handleSetGlobal l event w')) w (listeners w)).

(** What a hook hands to [useSyncExternalStore]: the subscribe function and
    the snapshot function.  The hook's value on a render is the snapshot. *)
Record ExternalStore : Type := {
  store_subscribe : nat → M nat;
  store_getSnapshot : M (Completion JsValue)
}.

(** [useOpenAiGlobal], lines 8-32. *)
Definition useOpenAiGlobal (key : Key) : ExternalStore :=
  {| store_subscribe := subscribe key;
     store_getSnapshot := getSnapshot key |}.

(** [useToolInput], lines 34-36; the cast [as T] does nothing at run time. *)
Definition useToolInput : ExternalStore := useOpenAiGlobal toolInput.

(** [useToolOutput], lines 38-40. *)
Definition useToolOutput : ExternalStore := useOpenAiGlobal toolOutput.

(** [useToolResponseMetadata], lines 42-44. *)
Definition useToolResponseMetadata : ExternalStore :=
  useOpenAiGlobal toolResponseMetadata.

(** ** The environment *)

(** The host writes slots of the state bag (when it is installed). *)
Definition host_set (g : gmap string JsValue) : M unit :=
  modify (λ w,
    match openai w with
    | None => w
    | Some host =>
        set_openai (Some {| bag := g ∪ bag host; callTool := callTool host |}) w
    end).

(** The host installs, replaces or removes [window.openai]. *)
Definition host_install (o : option OpenAi) : M unit :=
  modify (set_openai o).

(** Everything that can happen to the window. *)
Inductive Action : Type :=
| ASubscribe (key : Key) (onChange : nat)
| AUnsubscribe (h : nat)
| AGetSnapshot (key : Key)
| ARefreshTool (name : string) (args : gmap string JsValue)
| ADispatch (event : SetGlobalsEvent)
| AHostSet (g : gmap string JsValue)
| AHostInstall (o : option OpenAi).

Definition step (a : Action) (w : World) : World :=
  match a with
  | ASubscribe key onChange => snd (subscribe key onChange w)
  | AUnsubscribe h => snd (unsubscribe h w)
  | AGetSnapshot key => snd (getSnapshot key w)
  | ARefreshTool name args => snd (refreshTool name args w)
  | ADispatch event => snd (dispatchEvent event w)
  | AHostSet g => snd (host_set g w)
  | AHostInstall o => snd (host_install o w)
  end.

Definition run (acts : list Action) (w : World) : World :=
  foldl (λ w' a, step a w') w acts.

(** The page before the host and the library have done anything. *)
Definition empty_window : World :=
  {| openai := None; listeners := []; next_closure := 0; trace := [] |}.

(** ** Observations *)

Definition is_notify_of (h : nat) (o : Obs) : bool :=
  match o with
  | Notify h' _ => bool_decide (h' = h)
  | CallTool _ _ => false
  end.

(** How many times the [onChange] of listener [h] has been called. *)
Definition notify_count (h : nat) (w : World) : nat :=
  length (filter (λ o, is_notify_of h o) (trace w)).

(** Whether [handleSetGlobal] gets past its guard. *)
Definition fires (event : SetGlobalsEvent) (l : Listener) : bool :=
  negb (is_undefined (get_prop (globals (detail event)) (key_name (l_key l)))).

Definition fired (event : SetGlobalsEvent) (ls : list Listener) : list Obs :=
  (λ l, Notify (l_id l) (l_onChange l)) <$> filter (λ l, fires event l) ls.

(** Closure identities are unique and were all handed out already. *)
Definition wf (w : World) : Prop :=
  NoDup (l_id <$> listeners w) ∧
  ∀ l, l ∈ listeners w → l_id l < next_closure w.

(** No [handleSetGlobal] with identity [h] is registered, and none will be. *)
Definition gone (h : nat) (w : World) : Prop :=
  h < next_closure w ∧ h ∉ l_id <$> listeners w.

(** Every registered [handleSetGlobal] with identity [h] captured [key]. *)
Definition captured (h : nat) (key : Key) (w : World) : Prop :=
  h < next_closure w ∧
  ∀ l, l ∈ listeners w → l_id l = h → l_key l = key.

(** The closure [h] is registered, with [key] and [onChange] captured. *)
Definition installed (h : nat) (key : Key) (onChange : nat) (w : World) : Prop :=
  {| l_id := h; l_key := key; l_onChange := onChange |} ∈ listeners w.

(** Steps after which the host has not touched slot [k]: the library's own
    operations other than the delegated tool call, and host writes to other
    slots. *)
Definition quiet (k : Key) (a : Action) : Prop :=
  match a with
  | AHostSet g => g !! key_name k = None
  | AHostInstall _ | ARefreshTool _ _ => False
  | _ => True
  end.

(** ** Test scenarios of the specification *)

Definition event_of (g : gmap string JsValue) : SetGlobalsEvent :=
  {| detail := {| globals := g |} |}.

Definition light_window : World :=
  {| openai := Some {| bag := {[ "theme" := VStr "light" ]}; callTool := None |};
     listeners := []; next_closure := 0; trace := [] |}.

Definition unset_theme_window : World :=
  {| openai := Some {| bag := {[ "locale" := VStr "en-US" ]}; callTool := None |};
     listeners := []; next_closure := 0; trace := [] |}.

Definition output_window : World :=
  {| openai := Some {| bag := {[ "toolOutput" := VObj 5 ]}; callTool := None |};
     listeners := []; next_closure := 0; trace := [] |}.

(** A host whose tool call succeeds and stores a new tool output. *)
Definition search_host : HostCallTool := λ name args b,
  (Returns (Fulfilled (VObj 11)), <[ "toolOutput" := VObj 12 ]> b).

(** A host whose tool call fails. *)
Definition failing_host : HostCallTool := λ name args b,
  (Returns (Rejected (VError "Error" "tool failed")), b).

Definition window_with (f : HostCallTool) : World :=
  {| openai := Some {| bag := {[ "theme" := VStr "light" ]}; callTool := Some f |};
     listeners := []; next_closure := 0; trace := [] |}.

Definition cats : gmap string JsValue := {[ "query" := VStr "cats" ]}.

(** ** scripts/build.mjs *)

(** The two fields of [package.json] the build script reads.  An object is
    its entries in the order [Object.keys] lists them; a field that is absent
    is [None]. *)
Record PackageJson : Type := {
  dependencies : option (list (string * string));
  peerDependencies : option (list (string * string))
}.

(** [Object.keys(o)] *)
Definition Object_keys (o : list (string * string)) : list string := o.*1.

(** [external], lines 4-8; [x || {}] is [{}] when the field is absent. *)
Definition external (pkg : PackageJson) : list string :=
  "react" ::
  Object_keys (default [] (dependencies pkg)) ++
  Object_keys (default [] (peerDependencies pkg)).






(** ** The scenarios, run *)

Example theme_switch :
  let '(h, w1) := subscribe theme 7 light_window in
  let w2 := run [AHostSet {[ "theme" := VStr "dark" ]};
                 ADispatch (event_of {[ "theme" := VStr "dark" ]})] w1 in
  trace w2 = [Notify h 7] ∧
  fst (getSnapshot theme w2) = Normal (VStr "dark").
Proof. vm_compute. done. Qed.

Example unrelated_update :
  let '(h, w1) := subscribe toolOutput 7 light_window in
  trace (run [ADispatch (event_of {[ "locale" := VStr "fr-FR" ]})] w1) = [].
Proof. vm_compute. done. Qed.

(** ** What each operation leaves alone *)

Section Frames.
Implicit Types (w : World) (l : Listener) (event : SetGlobalsEvent).

Lemma handleSetGlobal_trace l event w :
  trace (snd (handleSetGlobal l event w)) =
  trace w ++ (if fires event l then [Notify (l_id l) (l_onChange l)] else []).
Proof.
  unfold handleSetGlobal, fires.
  destruct (is_undefined _); simpl; [by rewrite app_nil_r | done].
Qed.

Lemma handleSetGlobal_rest l event w :
  openai (snd (handleSetGlobal l event w)) = openai w ∧
  listeners (snd (handleSetGlobal l event w)) = listeners w ∧
  next_closure (snd (handleSetGlobal l event w)) = next_closure w.
Proof. unfold handleSetGlobal. by destruct (is_undefined _). Qed.

Lemma deliver_fold event ls w :
  let w' := foldl (λ w0 l, snd (handleSetGlobal l event w0)) w ls in
  openai w' = openai w ∧ listeners w' = listeners w ∧
  next_closure w' = next_closure w ∧ trace w' = trace w ++ fired event ls.
Proof.
  revert w. induction ls as [|l ls IH]; intros w; simpl.
  - by rewrite app_nil_r.
  - destruct (IH (snd (handleSetGlobal l event w))) as (Ho & Hl & Hn & Ht).
    destruct (handleSetGlobal_rest l event w) as (Ho' & Hl' & Hn').
    rewrite Ho, Hl, Hn, Ht, Ho', Hl', Hn', handleSetGlobal_trace.
    repeat split; try done.
    unfold fired. rewrite filter_cons. rewrite <- app_assoc.
    by destruct (fires event l).
Qed.

Lemma dispatchEvent_trace event w :
  trace (snd (dispatchEvent event w)) = trace w ++ fired event (listeners w).
Proof. apply (deliver_fold event (listeners w) w). Qed.

Lemma dispatchEvent_rest event w :
  openai (snd (dispatchEvent event w)) = openai w ∧
  listeners (snd (dispatchEvent event w)) = listeners w ∧
  next_closure (snd (dispatchEvent event w)) = next_closure w.
Proof.
  destruct (deliver_fold event (listeners w) w) as (? & ? & ? & _).
  by repeat split.
Qed.

Lemma subscribe_fst key onChange w :
  fst (subscribe key onChange w) = next_closure w.
Proof. done. Qed.

Lemma subscribe_rest key onChange w :
  openai (snd (subscribe key onChange w)) = openai w ∧
  next_closure (snd (subscribe key onChange w)) = S (next_closure w) ∧
  trace (snd (subscribe key onChange w)) = trace w.
Proof.
  unfold subscribe, addEventListener, modify, new_closure; simpl.
  unfold mbind, M_bind; simpl. by case_bool_decide.
Qed.

Lemma subscribe_listeners key onChange w :
  wf w →
  listeners (snd (subscribe key onChange w)) =
  listeners w ++
    [{| l_id := next_closure w; l_key := key; l_onChange := onChange |}].
Proof.
  intros [_ Hlt].
  unfold subscribe, addEventListener, modify, new_closure; simpl.
  unfold mbind, M_bind; simpl. case_bool_decide as Hin; [|done].
  apply list_elem_of_fmap in Hin as (l & Heq & Hl).
  apply Hlt in Hl. lia.
Qed.

Lemma getSnapshot_snd key w : snd (getSnapshot key w) = w.
Proof.
  unfold getSnapshot, read. unfold mbind, M_bind.
  by destruct (openai w).
Qed.

Lemma refreshTool_rest name args w :
  listeners (snd (refreshTool name args w)) = listeners w ∧
  next_closure (snd (refreshTool name args w)) = next_closure w ∧
  (trace (snd (refreshTool name args w)) = trace w ∨
   trace (snd (refreshTool name args w)) = trace w ++ [CallTool name args]).
Proof.
  unfold refreshTool, read. unfold mbind, M_bind.
  destruct (openai w) as [host|]; [|by auto].
  destruct (callTool host) as [f|]; [|by auto].
  simpl. destruct (f name args (bag host)) as [r bag'].
  simpl. destruct r as [e|[v|e|]]; simpl; auto.
Qed.

Lemma host_set_rest g w :
  listeners (snd (host_set g w)) = listeners w ∧
  next_closure (snd (host_set g w)) = next_closure w ∧
  trace (snd (host_set g w)) = trace w.
Proof. unfold host_set, modify; simpl. by destruct (openai w). Qed.
End Frames.

(** ** Who is notified by a delivery *)

Section Delivery.
Implicit Types (w : World) (l : Listener) (event : SetGlobalsEvent).

Lemma fired_cons event l ls :
  fired event (l :: ls) =
  (if fires event l then [Notify (l_id l) (l_onChange l)] else []) ++
  fired event ls.
Proof. unfold fired. rewrite filter_cons. by destruct (fires event l). Qed.

Lemma notify_filter_app h (t1 t2 : list Obs) :
  length (filter (λ o, is_notify_of h o) (t1 ++ t2)) =
  length (filter (λ o, is_notify_of h o) t1) +
  length (filter (λ o, is_notify_of h o) t2).
Proof. by rewrite filter_app, length_app. Qed.

(** A delivery is silent for [h] when no listener with that identity gets
    past its guard. *)
Lemma fired_silent h event ls :
  (∀ l, l ∈ ls → l_id l = h → fires event l = false) →
  filter (λ o, is_notify_of h o) (fired event ls) = [].
Proof.
  induction ls as [|l ls IH]; intros Hq; [done|].
  rewrite fired_cons, filter_app, IH, app_nil_r.
  - destruct (fires event l) eqn:Hf; [|done].
    rewrite filter_cons; simpl. case_bool_decide as Hid; [|done].
    rewrite (Hq l) in Hf; [done| by left | done].
  - intros l' Hl'. apply Hq. by right.
Qed.

(** A delivery notifies [h] once when its one listener gets past the
    guard. *)
Lemma fired_once h event ls l :
  NoDup (l_id <$> ls) → l ∈ ls → l_id l = h → fires event l = true →
  filter (λ o, is_notify_of h o) (fired event ls) =
  [Notify h (l_onChange l)].
Proof.
  induction ls as [|l' ls IH]; intros Hnd Hin Hid Hf.
  - by apply elem_of_nil in Hin.
  - rewrite fmap_cons in Hnd. apply NoDup_cons in Hnd as [Hfresh Hnd].
    rewrite fired_cons, filter_app.
    apply elem_of_cons in Hin as [<-|Hin].
    + rewrite Hf, filter_cons; simpl. rewrite bool_decide_eq_true_2 by done.
      simpl. rewrite fired_silent; [by rewrite Hid|].
      intros l2 Hl2 Hid2. exfalso. apply Hfresh.
      apply list_elem_of_fmap. exists l2. split; [congruence|done].
    + rewrite IH by done.
      assert (l_id l' ≠ h) as Hne.
      { intros Heq. apply Hfresh. apply list_elem_of_fmap.
        exists l. split; [congruence|done]. }
      destruct (fires event l'); [|done].
      rewrite filter_cons; simpl. by rewrite bool_decide_eq_false_2.
Qed.

Lemma step_notify_count h a w :
  notify_count h (step a w) =
  notify_count h w +
  match a with
  | ADispatch event =>
      length (filter (λ o, is_notify_of h o) (fired event (listeners w)))
  | _ => 0
  end.
Proof.
  unfold notify_count. destruct a as [k cb|h'|k|name args|event|g|o]; unfold step.
  - destruct (subscribe_rest k cb w) as (_ & _ & ->). lia.
  - simpl. lia.
  - rewrite getSnapshot_snd. lia.
  - destruct (refreshTool_rest name args w) as (_ & _ & [-> | ->]); [lia|].
    rewrite notify_filter_app. simpl. lia.
  - rewrite dispatchEvent_trace. apply notify_filter_app.
  - destruct (host_set_rest g w) as (_ & _ & ->). lia.
  - simpl. lia.
Qed.
End Delivery.

(** ** Invariants of the listener list *)

Section Invariants.
Implicit Types (w : World) (l : Listener) (a : Action).

(** A step keeps the listener list, registers a fresh closure at its end,
    or removes the closures of one identity. *)
Lemma step_listeners a w :
  wf w →
  next_closure w ≤ next_closure (step a w) ∧
  (listeners (step a w) = listeners w ∨
   (∃ key onChange,
      listeners (step a w) =
      listeners w ++
        [{| l_id := next_closure w; l_key := key; l_onChange := onChange |}] ∧
      next_closure (step a w) = S (next_closure w)) ∨
   (∃ h, a = AUnsubscribe h ∧
      listeners (step a w) = filter (λ l, l_id l ≠ h) (listeners w))).
Proof.
  intros Hwf. destruct a as [k cb|h'|k|name args|event|g|o]; unfold step.
  - destruct (subscribe_rest k cb w) as (_ & Hn & _). rewrite Hn.
    split; [lia|]. right; left. exists k, cb.
    by rewrite subscribe_listeners.
  - split; [done|]. right; right. by exists h'.
  - rewrite getSnapshot_snd. auto.
  - destruct (refreshTool_rest name args w) as (-> & -> & _). auto.
  - destruct (dispatchEvent_rest event w) as (_ & -> & ->). auto.
  - destruct (host_set_rest g w) as (-> & -> & _). auto.
  - auto.
Qed.

Lemma wf_step a w : wf w → wf (step a w).
Proof.
  intros Hwf. destruct (step_listeners a w Hwf) as [Hle Hcases].
  destruct Hwf as [Hnd Hlt]. unfold wf.
  destruct Hcases as [-> | [(k & cb & -> & ->) | (h & _ & ->)]].
  - split; [done|]. intros l Hl. apply Hlt in Hl. lia.
  - split.
    + rewrite fmap_app. apply NoDup_app. split; [done|]. split.
      * intros x Hx Hx'. apply list_elem_of_fmap in Hx as (l & -> & Hl).
        apply Hlt in Hl. simpl in Hx'. apply list_elem_of_singleton in Hx'.
        lia.
      * simpl. apply NoDup_singleton.
    + intros l Hl. apply elem_of_app in Hl as [Hl|Hl].
      * apply Hlt in Hl. lia.
      * apply list_elem_of_singleton in Hl as ->. simpl. lia.
  - split.
    + eapply sublist_NoDup; [exact Hnd|].
      apply fmap_sublist, sublist_filter.
    + intros l Hl. apply list_elem_of_filter in Hl as [_ Hl].
      apply Hlt in Hl. lia.
Qed.

Lemma wf_run acts w : wf w → wf (run acts w).
Proof.
  revert w. induction acts as [|a acts IH]; intros w Hwf; [done|].
  apply IH, wf_step, Hwf.
Qed.

Lemma gone_step h a w : wf w → gone h w → gone h (step a w).
Proof.
  intros Hwf [Hlt Hnot]. destruct (step_listeners a w Hwf) as [Hle Hcases].
  split; [lia|].
  destruct Hcases as [-> | [(k & cb & -> & _) | (h' & _ & ->)]].
  - done.
  - rewrite fmap_app. intros Hin. apply elem_of_app in Hin as [Hin|Hin].
    + by apply Hnot.
    + simpl in Hin. apply list_elem_of_singleton in Hin. lia.
  - intros Hin. apply Hnot.
    apply list_elem_of_fmap in Hin as (l & -> & Hl).
    apply list_elem_of_filter in Hl as [_ Hl].
    apply list_elem_of_fmap. by exists l.
Qed.

Lemma captured_step h key a w :
  wf w → captured h key w → captured h key (step a w).
Proof.
  intros Hwf [Hlt Hkey]. destruct (step_listeners a w Hwf) as [Hle Hcases].
  split; [lia|].
  destruct Hcases as [-> | [(k & cb & -> & _) | (h' & _ & ->)]].
  - done.
  - intros l Hl Hid. apply elem_of_app in Hl as [Hl|Hl]; [by apply Hkey|].
    apply list_elem_of_singleton in Hl as ->. simpl in Hid. lia.
  - intros l Hl Hid. apply list_elem_of_filter in Hl as [_ Hl].
    by apply Hkey.
Qed.

Lemma captured_run h key acts w :
  wf w → captured h key w →
  wf (run acts w) ∧ captured h key (run acts w).
Proof.
  revert w. induction acts as [|a acts IH]; intros w Hwf Hc; [done|].
  apply IH; [by apply wf_step | by apply captured_step].
Qed.

(** Right after [subscribe], the new closure is the only one of its
    identity and holds the key it was given. *)
Lemma subscribe_wf key onChange w : wf w → wf (snd (subscribe key onChange w)).
Proof. apply (wf_step (ASubscribe key onChange)). Qed.

Lemma subscribe_captured key onChange w :
  wf w →
  captured (fst (subscribe key onChange w)) key (snd (subscribe key onChange w)).
Proof.
  intros Hwf. rewrite subscribe_fst.
  destruct (subscribe_rest key onChange w) as (_ & Hn & _).
  split; [lia|]. rewrite subscribe_listeners by done.
  intros l Hl Hid. apply elem_of_app in Hl as [Hl|Hl].
  - destruct Hwf as [_ Hlt]. apply Hlt in Hl. lia.
  - by apply list_elem_of_singleton in Hl as ->.
Qed.

Lemma unsubscribe_gone h w :
  h < next_closure w → gone h (snd (unsubscribe h w)).
Proof.
  intros Hlt. split; [done|]. simpl. intros Hin.
  apply list_elem_of_fmap in Hin as (l & -> & Hl).
  apply list_elem_of_filter in Hl as [Hne _]. done.
Qed.
End Invariants.

(** ** Consequences for one subscriber *)

Section Subscriber.
Implicit Types (w : World) (l : Listener) (event : SetGlobalsEvent).

Lemma key_name_inj k1 k2 : key_name k1 = key_name k2 → k1 = k2.
Proof. by destruct k1, k2. Qed.

(** The guard of [handleSetGlobal] holds back a listener whose key has no
    entry, or an [undefined] one, in the event. *)
Lemma fires_false_iff event l :
  fires event l = false ↔
  globals (detail event) !! key_name (l_key l) = None ∨
  globals (detail event) !! key_name (l_key l) = Some VUndefined.
Proof.
  unfold fires, get_prop.
  destruct (globals (detail event) !! key_name (l_key l)) as [[]|];
    simpl; intuition congruence.
Qed.

Lemma handleSetGlobal_skip event l w :
  fires event l = false → handleSetGlobal l event w = (tt, w).
Proof.
  unfold fires, handleSetGlobal. by destruct (is_undefined _).
Qed.

(** A delivery whose entry for [key] is missing or [undefined] does not
    reach a closure that captured [key]. *)
Lemma captured_silent h key event w :
  captured h key w →
  globals (detail event) !! key_name key = None ∨
  globals (detail event) !! key_name key = Some VUndefined →
  notify_count h (snd (dispatchEvent event w)) = notify_count h w.
Proof.
  intros [_ Hkey] Hentry.
  change (snd (dispatchEvent event w)) with (step (ADispatch event) w).
  rewrite step_notify_count.
  rewrite fired_silent; [simpl; lia|].
  intros l Hl Hid. apply fires_false_iff. by rewrite (Hkey l Hl Hid).
Qed.

(** Once gone, never notified again. *)
Lemma gone_silent h acts w :
  wf w → gone h w → notify_count h (run acts w) = notify_count h w.
Proof.
  revert w. induction acts as [|a acts IH]; intros w Hwf Hg; [done|].
  simpl. rewrite IH by (by apply wf_step || by apply gone_step).
  rewrite step_notify_count. destruct a; try lia.
  rewrite fired_silent; [simpl; lia|].
  intros l Hl Hid. destruct Hg as [_ Hnot]. exfalso. apply Hnot.
  apply list_elem_of_fmap. by exists l.
Qed.

Lemma subscribe_installed key onChange w :
  wf w →
  installed (fst (subscribe key onChange w)) key onChange
    (snd (subscribe key onChange w)).
Proof.
  intros Hwf. unfold installed. rewrite subscribe_listeners by done.
  rewrite subscribe_fst. apply elem_of_app. right. by left.
Qed.

Lemma installed_step h key onChange a w :
  wf w → a ≠ AUnsubscribe h →
  installed h key onChange w → installed h key onChange (step a w).
Proof.
  intros Hwf Hne Hin. unfold installed in *.
  destruct (step_listeners a w Hwf) as
    [_ [-> | [(k & cb & -> & _) | (h' & -> & ->)]]].
  - done.
  - apply elem_of_app. by left.
  - apply list_elem_of_filter. split; [|done]. simpl. congruence.
Qed.

Lemma installed_run h key onChange acts w :
  wf w → Forall (λ a, a ≠ AUnsubscribe h) acts →
  installed h key onChange w →
  wf (run acts w) ∧ installed h key onChange (run acts w).
Proof.
  revert w. induction acts as [|a acts IH]; intros w Hwf Hall Hin; [done|].
  apply Forall_cons in Hall as [Ha Hall].
  apply IH; [by apply wf_step | done | by apply installed_step].
Qed.

(** A delivery with a defined entry for [key] reaches a registered closure
    exactly once. *)
Lemma installed_notified h key onChange event v w :
  wf w → installed h key onChange w →
  globals (detail event) !! key_name key = Some v → v ≠ VUndefined →
  filter (λ o, is_notify_of h o) (fired event (listeners w)) =
  [Notify h onChange].
Proof.
  intros [Hnd _] Hin Hentry Hv.
  apply (fired_once h event (listeners w) _ Hnd Hin); [done|].
  unfold fires, get_prop; simpl. rewrite Hentry; simpl. by destruct v.
Qed.
End Subscriber.

Lemma wf_no_listeners o n t :
  wf {| openai := o; listeners := []; next_closure := n; trace := t |}.
Proof. split; [constructor|]. intros l Hl. by apply elem_of_nil in Hl. Qed.

(** ** Properties of [useOpenAiGlobal] *)

(** C1 (key isolation).  For distinct keys [k1] and [k2], delivering an
    event whose [globals] holds an entry for [k2] only never calls the
    [onChange] of a listener registered by [subscribe k1], whatever happened
    to the window between the subscription and the delivery. *)
Theorem key_isolation (k1 k2 : Key) (v : JsValue) (onChange : nat)
    (acts : list Action) (w : World) (h : nat) (w1 : World) :
  k1 ≠ k2 → wf w → subscribe k1 onChange w = (h, w1) →
  let w2 := run acts w1 in
  notify_count h (snd (dispatchEvent (event_of {[ key_name k2 := v ]}) w2)) =
  notify_count h w2.
Proof.
  intros Hne Hwf Hsub w2.
  pose proof (subscribe_captured k1 onChange w Hwf) as Hc.
  pose proof (subscribe_wf k1 onChange w Hwf) as Hwf1.
  rewrite Hsub in Hc, Hwf1; simpl in Hc, Hwf1.
  destruct (captured_run h k1 acts w1 Hwf1 Hc) as [_ Hc2].
  apply (captured_silent h k1); [done|]. left. simpl.
  apply lookup_singleton_ne. intros Heq. by apply key_name_inj in Heq.
Qed.

Lemma key_isolation_witness :
  theme ≠ locale ∧ wf light_window ∧
  subscribe theme 7 light_window =
    (0, snd (subscribe theme 7 light_window)) ∧
  let w2 := run [ASubscribe locale 8] (snd (subscribe theme 7 light_window)) in
  notify_count 0
    (snd (dispatchEvent (event_of {[ key_name locale := VStr "fr-FR" ]}) w2)) =
  notify_count 0 w2.
Proof.
  split; [done|]. split; [apply wf_no_listeners|]. split; [reflexivity|].
  apply (key_isolation theme locale (VStr "fr-FR") 7 [ASubscribe locale 8]
           light_window 0 (snd (subscribe theme 7 light_window)));
    [done | apply wf_no_listeners | reflexivity].
Defined.

(** C2 (no-value suppression).  Delivering an event whose entry for [k] is
    [undefined] never calls the [onChange] of a listener registered by
    [subscribe k]; the delivery leaves what [getSnapshot k] reads as it was,
    so a key that read as [undefined] still reads as [undefined]. *)
Theorem no_value_suppression (k : Key) (onChange : nat) (acts : list Action)
    (event : SetGlobalsEvent) (w : World) (h : nat) (w1 : World) :
  wf w → subscribe k onChange w = (h, w1) →
  globals (detail event) !! key_name k = Some VUndefined →
  let w2 := run acts w1 in
  let w3 := snd (dispatchEvent event w2) in
  notify_count h w3 = notify_count h w2 ∧
  fst (getSnapshot k w3) = fst (getSnapshot k w2) ∧
  (fst (getSnapshot k w2) = Normal VUndefined →
   fst (getSnapshot k w3) = Normal VUndefined).
Proof.
  intros Hwf Hsub Hentry w2 w3.
  pose proof (subscribe_captured k onChange w Hwf) as Hc.
  pose proof (subscribe_wf k onChange w Hwf) as Hwf1.
  rewrite Hsub in Hc, Hwf1; simpl in Hc, Hwf1.
  destruct (captured_run h k acts w1 Hwf1 Hc) as [_ Hc2].
  assert (fst (getSnapshot k w3) = fst (getSnapshot k w2)) as Hsame.
  { unfold getSnapshot, read, mbind, M_bind. subst w3.
    destruct (dispatchEvent_rest event w2) as (-> & _ & _).
    by destruct (openai w2). }
  split; [|split; [done | by rewrite Hsame]].
  apply (captured_silent h k); [done | by right].
Qed.

Lemma no_value_suppression_witness :
  let event := event_of {[ "theme" := VUndefined ]} in
  let w2 := run [] (snd (subscribe theme 7 unset_theme_window)) in
  let w3 := snd (dispatchEvent event w2) in
  wf unset_theme_window ∧
  globals (detail event) !! key_name theme = Some VUndefined ∧
  fst (getSnapshot theme w2) = Normal VUndefined ∧
  notify_count 0 w3 = notify_count 0 w2 ∧
  fst (getSnapshot theme w3) = Normal VUndefined.
Proof.
  intros event w2 w3.
  split; [apply wf_no_listeners|]. split; [reflexivity|].
  split; [reflexivity|].
  destruct (no_value_suppression theme 7 [] event unset_theme_window 0
              (snd (subscribe theme 7 unset_theme_window)))
    as (Hcount & _ & Hstill);
    [apply wf_no_listeners | reflexivity | reflexivity |].
  split; [exact Hcount | apply Hstill; reflexivity].
Defined.

(** C8 (unsubscribe finality).  [subscribe k] installs one listener; calling
    the unsubscribe action it returned, once, leaves no listener of that
    subscription installed, and no later event, subscription or host
    activity ever calls its [onChange] again. *)
Theorem unsubscribe_finality (k : Key) (onChange : nat)
    (acts later : list Action) (w : World) (h : nat) (w1 : World) :
  wf w → subscribe k onChange w = (h, w1) →
  let w2 := snd (unsubscribe h (run acts w1)) in
  installed h k onChange w1 ∧
  (h ∉ l_id <$> listeners w2) ∧
  notify_count h (run later w2) = notify_count h w2.
Proof.
  intros Hwf Hsub w2.
  pose proof (subscribe_captured k onChange w Hwf) as Hc.
  pose proof (subscribe_wf k onChange w Hwf) as Hwf1.
  pose proof (subscribe_installed k onChange w Hwf) as Hin.
  rewrite Hsub in Hc, Hwf1, Hin; simpl in Hc, Hwf1, Hin.
  destruct (captured_run h k acts w1 Hwf1 Hc) as [Hwf2 [Hlt _]].
  pose proof (unsubscribe_gone h (run acts w1) Hlt) as Hgone.
  split; [done|]. split; [apply Hgone|].
  apply gone_silent; [|done].
  apply (wf_step (AUnsubscribe h)), Hwf2.
Qed.

Lemma unsubscribe_finality_witness :
  let dark := event_of {[ "theme" := VStr "dark" ]} in
  let w1 := snd (subscribe theme 7 light_window) in
  let w2 := snd (unsubscribe 0 (run [ADispatch dark] w1)) in
  wf light_window ∧
  notify_count 0 w2 = 1 ∧
  listeners w2 = [] ∧
  notify_count 0 (run [ADispatch dark; ADispatch dark] w2) = 1.
Proof.
  intros dark w1 w2.
  split; [apply wf_no_listeners|]. split; [reflexivity|].
  split; [reflexivity|].
  destruct (unsubscribe_finality theme 7 [ADispatch dark]
              [ADispatch dark; ADispatch dark] light_window 0 w1)
    as (_ & _ & Hquiet);
    [apply wf_no_listeners | reflexivity |].
  exact Hquiet.
Defined.

(** C10 ([null] is a value).  The guard of [handleSetGlobal] tests for
    [undefined] only: delivering an event whose entry for [k] is [null]
    calls the [onChange] of a listener registered by [subscribe k], once,
    as long as that listener has not been unsubscribed. *)
Theorem null_entry_notifies (k : Key) (onChange : nat) (acts : list Action)
    (event : SetGlobalsEvent) (w : World) (h : nat) (w1 : World) :
  wf w → subscribe k onChange w = (h, w1) →
  Forall (λ a, a ≠ AUnsubscribe h) acts →
  globals (detail event) !! key_name k = Some VNull →
  let w2 := run acts w1 in
  let w3 := snd (dispatchEvent event w2) in
  notify_count h w3 = S (notify_count h w2) ∧
  Notify h onChange ∈ trace w3.
Proof.
  intros Hwf Hsub Hacts Hentry w2 w3.
  pose proof (subscribe_wf k onChange w Hwf) as Hwf1.
  pose proof (subscribe_installed k onChange w Hwf) as Hin.
  rewrite Hsub in Hwf1, Hin; simpl in Hwf1, Hin.
  destruct (installed_run h k onChange acts w1 Hwf1 Hacts Hin) as [Hwf2 Hin2].
  pose proof (installed_notified h k onChange event VNull (run acts w1)
                Hwf2 Hin2 Hentry ltac:(done)) as Hone.
  split.
  - subst w3.
    change (snd (dispatchEvent event w2)) with (step (ADispatch event) w2).
    rewrite step_notify_count. subst w2. rewrite Hone. simpl. lia.
  - subst w3. rewrite dispatchEvent_trace. apply elem_of_app. right.
    assert (Notify h onChange ∈
            filter (λ o, is_notify_of h o) (fired event (listeners w2))) as Hm.
    { subst w2. rewrite Hone. by left. }
    by apply list_elem_of_filter in Hm as [_ Hm].
Qed.

Lemma null_entry_notifies_witness :
  let cleared := event_of {[ "toolOutput" := VNull ]} in
  let w1 := snd (subscribe toolOutput 7 light_window) in
  wf light_window ∧
  Forall (λ a, a ≠ AUnsubscribe 0) [AGetSnapshot toolOutput] ∧
  globals (detail cleared) !! key_name toolOutput = Some VNull ∧
  let w2 := run [AGetSnapshot toolOutput] w1 in
  notify_count 0 (snd (dispatchEvent cleared w2)) = S (notify_count 0 w2) ∧
  Notify 0 7 ∈ trace (snd (dispatchEvent cleared w2)).
Proof.
  intros cleared w1.
  split; [apply wf_no_listeners|].
  split; [by repeat constructor|]. split; [reflexivity|].
  apply (null_entry_notifies toolOutput 7 [AGetSnapshot toolOutput] cleared
           light_window 0 w1);
    [apply wf_no_listeners | reflexivity | by repeat constructor | reflexivity].
Defined.

(** ** Reading the bag *)

Lemma getSnapshot_fst_openai k w w' :
  openai w' = openai w → fst (getSnapshot k w') = fst (getSnapshot k w).
Proof.
  intros Heq. unfold getSnapshot, read, mbind, M_bind. rewrite Heq.
  by destruct (openai w).
Qed.

Lemma quiet_step k a w :
  quiet k a → fst (getSnapshot k (step a w)) = fst (getSnapshot k w).
Proof.
  destruct a as [k' cb|h'|k'|name args|event|g|o]; unfold step; intros Hq.
  - apply getSnapshot_fst_openai. by destruct (subscribe_rest k' cb w).
  - by apply getSnapshot_fst_openai.
  - by rewrite getSnapshot_snd.
  - done.
  - apply getSnapshot_fst_openai. by destruct (dispatchEvent_rest event w).
  - simpl in Hq. unfold getSnapshot, host_set, read, modify, mbind, M_bind.
    simpl. destruct (openai w) as [host|] eqn:Hw; simpl; [|by rewrite Hw].
    unfold get_prop. by rewrite lookup_union_r.
  - done.
Qed.

Lemma quiet_run k acts w :
  Forall (quiet k) acts →
  fst (getSnapshot k (run acts w)) = fst (getSnapshot k w).
Proof.
  revert w. induction acts as [|a acts IH]; intros w Hall; [done|].
  apply Forall_cons in Hall as [Ha Hall]. simpl.
  rewrite IH by done. by apply quiet_step.
Qed.

(** C5 ([getSnapshot] is a plain read of the live bag).  With the host
    installed, [getSnapshot k] returns the value stored under [k] in
    [window.openai] as it is and changes nothing; repeated calls return the
    same value as long as the host has not written slot [k] in between; and
    a host write to slot [k] is what the next call returns. *)
Theorem getSnapshot_reads_live_bag (k : Key) (w : World) (host : OpenAi) :
  openai w = Some host →
  getSnapshot k w = (Normal (get_prop (bag host) (key_name k)), w) ∧
  (∀ acts, Forall (quiet k) acts →
     fst (getSnapshot k (run acts w)) = fst (getSnapshot k w)) ∧
  (∀ v, fst (getSnapshot k (snd (host_set {[ key_name k := v ]} w))) =
        Normal v).
Proof.
  intros Hhost. split; [|split].
  - unfold getSnapshot, read, mbind, M_bind. by rewrite Hhost.
  - intros acts Hq. by apply quiet_run.
  - intros v. unfold getSnapshot, host_set, read, modify, mbind, M_bind.
    simpl. rewrite Hhost. simpl. unfold get_prop.
    erewrite lookup_union_Some_l; [done|]. apply lookup_singleton_eq.
Qed.

Lemma getSnapshot_reads_live_bag_witness :
  let acts := [AGetSnapshot toolOutput; ASubscribe toolOutput 7;
               AHostSet {[ "locale" := VStr "fr-FR" ]};
               ADispatch (event_of {[ "locale" := VStr "fr-FR" ]})] in
  Forall (quiet toolOutput) acts ∧
  getSnapshot toolOutput output_window = (Normal (VObj 5), output_window) ∧
  fst (getSnapshot toolOutput (run acts output_window)) = Normal (VObj 5).
Proof.
  intros acts.
  destruct (getSnapshot_reads_live_bag toolOutput output_window
              {| bag := {[ "toolOutput" := VObj 5 ]}; callTool := None |}
              eq_refl) as (Hread & Hstable & _).
  assert (Forall (quiet toolOutput) acts) as Hq.
  { repeat constructor. }
  split; [exact Hq|]. split; [exact Hread|].
  rewrite (Hstable acts Hq). reflexivity.
Defined.

(** C4 (reads without the host).  Line 30 reads [window.openai[key]] with no
    guard: when [window.openai] is absent, [getSnapshot] throws a
    [TypeError] instead of returning [undefined]. *)
Theorem getSnapshot_without_host_throws :
  getSnapshot theme empty_window =
  (Throw (TypeError "Cannot read properties of undefined"), empty_window).
Proof. reflexivity. Qed.

(** C9 (frame).  [subscribe], its unsubscribe action, the installed listener,
    a whole delivery and [getSnapshot] leave [window.openai] as it was; after
    [refreshTool] it is either as it was or as the host's [callTool] left
    it. *)
Theorem library_never_writes_bag (k : Key) (onChange h : nat) (l : Listener)
    (event : SetGlobalsEvent) (name : string) (args : gmap string JsValue)
    (w : World) :
  openai (snd (subscribe k onChange w)) = openai w ∧
  openai (snd (unsubscribe h w)) = openai w ∧
  openai (snd (handleSetGlobal l event w)) = openai w ∧
  openai (snd (dispatchEvent event w)) = openai w ∧
  openai (snd (getSnapshot k w)) = openai w ∧
  (openai (snd (refreshTool name args w)) = openai w ∨
   ∃ host f, openai w = Some host ∧ callTool host = Some f ∧
     openai (snd (refreshTool name args w)) =
     Some {| bag := snd (f name args (bag host)); callTool := Some f |}).
Proof.
  split; [by destruct (subscribe_rest k onChange w)|].
  split; [done|].
  split; [by destruct (handleSetGlobal_rest l event w)|].
  split; [by destruct (dispatchEvent_rest event w)|].
  split; [by rewrite getSnapshot_snd|].
  unfold refreshTool, read, mbind, M_bind.
  destruct (openai w) as [host|] eqn:Hhost; [|by left].
  destruct (callTool host) as [f|] eqn:Hf; [|by left].
  right. exists host, f. split; [done|]. split; [done|].
  simpl. destruct (f name args (bag host)) as [r bag'].
  simpl. by destruct r as [e|[v|e|]].
Qed.

(** ** Properties of [refreshTool] *)

(** C3, as far as the code goes (no host object).  When [window.openai] is
    absent, [refreshTool] resolves, to [undefined], and changes nothing:
    no call leaves the library and no state is touched. *)
Theorem refreshTool_without_host (name : string) (args : gmap string JsValue)
    (w : World) :
  openai w = None →
  refreshTool name args w = (Fulfilled VUndefined, w).
Proof.
  intros Hnone. unfold refreshTool, read, mbind, M_bind. by rewrite Hnone.
Qed.

Lemma refreshTool_without_host_witness :
  openai empty_window = None ∧
  refreshTool "x" ∅ empty_window = (Fulfilled VUndefined, empty_window).
Proof.
  split; [reflexivity|].
  apply (refreshTool_without_host "x" ∅ empty_window). reflexivity.
Defined.

(** C3, the failing half.  [?.] guards the object, not the method: with
    [window.openai] present and no [callTool] on it, [refreshTool] does not
    resolve but rejects with a [TypeError]. *)
Lemma refreshTool_missing_method_rejects :
  (∃ host, openai light_window = Some host ∧ callTool host = None) ∧
  fst (refreshTool "x" ∅ light_window) =
    Rejected (TypeError "window.openai.callTool is not a function") ∧
  ∀ v, fst (refreshTool "x" ∅ light_window) ≠ Fulfilled v.
Proof.
  split; [by eexists|]. split; [reflexivity|]. intros v. discriminate.
Qed.

(** C6 (delegation).  With the host and its [callTool] present,
    [refreshTool name args] calls [callTool] once, with the very [name] and
    [args] it was given; the bag is then what the host made of it; and the
    payload the host resolves with is dropped: the caller gets
    [undefined]. *)
Theorem refreshTool_delegates (name : string) (args : gmap string JsValue)
    (w : World) (host : OpenAi) (f : HostCallTool) :
  openai w = Some host → callTool host = Some f →
  let w' := snd (refreshTool name args w) in
  trace w' = trace w ++ [CallTool name args] ∧
  openai w' = Some {| bag := snd (f name args (bag host)); callTool := Some f |} ∧
  (∀ payload, fst (f name args (bag host)) = Returns (Fulfilled payload) →
     fst (refreshTool name args w) = Fulfilled VUndefined) ∧
  (∀ v, fst (refreshTool name args w) = Fulfilled v → v = VUndefined).
Proof.
  intros Hhost Hf. unfold refreshTool, read, mbind, M_bind.
  rewrite Hhost, Hf. simpl.
  destruct (f name args (bag host)) as [r bag'].
  destruct r as [e|[v|e|]]; simpl; repeat split; congruence.
Qed.

Lemma refreshTool_delegates_witness :
  let w' := snd (refreshTool "search" cats (window_with search_host)) in
  trace w' = [CallTool "search" cats] ∧
  fst (refreshTool "search" cats (window_with search_host)) =
    Fulfilled VUndefined ∧
  fst (getSnapshot toolOutput w') = Normal (VObj 12).
Proof.
  intros w'.
  destruct (refreshTool_delegates "search" cats (window_with search_host)
              {| bag := {[ "theme" := VStr "light" ]};
                 callTool := Some search_host |} search_host
              eq_refl eq_refl) as (Htrace & _ & Hvoid & _).
  split; [exact Htrace|]. split; [apply (Hvoid (VObj 11)); reflexivity|].
  reflexivity.
Defined.

(** C7 (delegated failure).  When the host's [callTool] rejects,
    [refreshTool] rejects with that same value; [callTool] was called once,
    and nothing was caught, wrapped or retried. *)
Theorem refreshTool_propagates_rejection (name : string)
    (args : gmap string JsValue) (w : World) (host : OpenAi)
    (f : HostCallTool) (e : JsValue) :
  openai w = Some host → callTool host = Some f →
  fst (f name args (bag host)) = Returns (Rejected e) →
  fst (refreshTool name args w) = Rejected e ∧
  trace (snd (refreshTool name args w)) = trace w ++ [CallTool name args].
Proof.
  intros Hhost Hf Hrej. unfold refreshTool, read, mbind, M_bind.
  rewrite Hhost, Hf. simpl.
  destruct (f name args (bag host)) as [r bag']. simpl in Hrej. by subst r.
Qed.

Lemma refreshTool_propagates_rejection_witness :
  fst (refreshTool "search" cats (window_with failing_host)) =
    Rejected (VError "Error" "tool failed") ∧
  trace (snd (refreshTool "search" cats (window_with failing_host))) =
    [CallTool "search" cats].
Proof.
  apply (refreshTool_propagates_rejection "search" cats
           (window_with failing_host)
           {| bag := {[ "theme" := VStr "light" ]};
              callTool := Some failing_host |} failing_host
           (VError "Error" "tool failed") eq_refl eq_refl eq_refl).
Defined.

(** A host that throws before returning a promise is a rejection too. *)
Lemma refreshTool_propagates_throw name args w host f e :
  openai w = Some host → callTool host = Some f →
  fst (f name args (bag host)) = Throws e →
  fst (refreshTool name args w) = Rejected e.
Proof.
  intros Hhost Hf Hthrow. unfold refreshTool, read, mbind, M_bind.
  rewrite Hhost, Hf. simpl.
  destruct (f name args (bag host)) as [r bag']. simpl in Hthrow. by subst r.
Qed.

(** ** More on the listener list *)

Lemma filter_all {A} (P : A → Prop) `{!∀ x, Decision (P x)} (l : list A) :
  (∀ x, x ∈ l → P x) → filter P l = l.
Proof.
  induction l as [|x l IH]; intros Hall; [done|].
  rewrite filter_cons_True by (apply Hall; by left).
  f_equal. apply IH. intros y Hy. apply Hall. by right.
Qed.

Lemma same_id_same_listener (ls : list Listener) (l l' : Listener) :
  NoDup (l_id <$> ls) → l ∈ ls → l' ∈ ls → l_id l = l_id l' → l = l'.
Proof.
  induction ls as [|x ls IH]; intros Hnd Hl Hl' Hid.
  - by apply elem_of_nil in Hl.
  - rewrite fmap_cons in Hnd. apply NoDup_cons in Hnd as [Hfresh Hnd].
    apply elem_of_cons in Hl as [->|Hl]; apply elem_of_cons in Hl' as [->|Hl'].
    + done.
    + exfalso. apply Hfresh. rewrite Hid. by apply list_elem_of_fmap_2.
    + exfalso. apply Hfresh. rewrite <- Hid. by apply list_elem_of_fmap_2.
    + by apply IH.
Qed.

Lemma world_eq (w w' : World) :
  openai w = openai w' → listeners w = listeners w' →
  next_closure w = next_closure w' → trace w = trace w' → w = w'.
Proof. destruct w, w'; simpl; congruence. Qed.

(** The count of notifications of [h] after a delivery, for the one
    registered closure of that identity. *)
Lemma installed_delivery h key onChange event w :
  wf w → installed h key onChange w →
  notify_count h (snd (dispatchEvent event w)) =
  notify_count h w +
  (if is_undefined (get_prop (globals (detail event)) (key_name key))
   then 0 else 1).
Proof.
  intros Hwf Hin. pose proof Hwf as [Hnd _].
  change (snd (dispatchEvent event w)) with (step (ADispatch event) w).
  rewrite step_notify_count. f_equal.
  destruct (is_undefined _) eqn:Hu.
  - rewrite fired_silent; [done|]. intros l Hl Hid.
    assert (l = {| l_id := h; l_key := key; l_onChange := onChange |}) as ->.
    { by apply (same_id_same_listener (listeners w)). }
    unfold fires; simpl. by rewrite Hu.
  - rewrite (fired_once h event (listeners w) _ Hnd Hin); [done|done|].
    unfold fires; simpl. by rewrite Hu.
Qed.

(** X1.  Under the invariant of the window, [subscribe] registers exactly
    one new listener, last in the list, under a closure identity not used
    before; it calls nothing and leaves [window.openai] alone. *)
Theorem subscribe_installs_one_listener (key : Key) (onChange : nat)
    (w : World) :
  wf w →
  let h := fst (subscribe key onChange w) in
  let w1 := snd (subscribe key onChange w) in
  listeners w1 =
    listeners w ++ [{| l_id := h; l_key := key; l_onChange := onChange |}] ∧
  (h ∉ l_id <$> listeners w) ∧
  trace w1 = trace w ∧ openai w1 = openai w.
Proof.
  intros Hwf h w1. subst h w1. rewrite subscribe_fst.
  destruct (subscribe_rest key onChange w) as (Ho & _ & Ht).
  split; [by apply subscribe_listeners|]. split; [|done].
  intros Hin. apply list_elem_of_fmap in Hin as (l & Heq & Hl).
  destruct Hwf as [_ Hlt]. apply Hlt in Hl. lia.
Qed.

Lemma subscribe_installs_one_listener_witness :
  wf light_window ∧
  listeners (snd (subscribe locale 3 light_window)) =
    [{| l_id := 0; l_key := locale; l_onChange := 3 |}].
Proof.
  split; [apply wf_no_listeners|].
  apply (subscribe_installs_one_listener locale 3 light_window).
  apply wf_no_listeners.
Defined.

(** X2.  Round trip: calling the unsubscribe action right after [subscribe]
    gives back the listener list, the trace and [window.openai] as they
    were before the subscription. *)
Theorem subscribe_unsubscribe_round_trip (key : Key) (onChange : nat)
    (w : World) :
  wf w →
  let h := fst (subscribe key onChange w) in
  let w2 := snd (unsubscribe h (snd (subscribe key onChange w))) in
  listeners w2 = listeners w ∧ trace w2 = trace w ∧ openai w2 = openai w.
Proof.
  intros Hwf h w2. subst h w2. rewrite subscribe_fst.
  destruct (subscribe_rest key onChange w) as (Ho & _ & Ht).
  split; [|by split].
  cbn [unsubscribe removeEventListener modify snd set_listeners listeners].
  rewrite subscribe_listeners by done.
  rewrite filter_app, filter_all.
  - rewrite filter_cons_False; [by rewrite app_nil_r|]. simpl. by intros Hne.
  - intros l Hl. destruct Hwf as [_ Hlt]. apply Hlt in Hl. lia.
Qed.

Lemma subscribe_unsubscribe_round_trip_witness :
  let w1 := snd (subscribe theme 7 light_window) in
  wf w1 ∧
  listeners (snd (unsubscribe 1 (snd (subscribe locale 3 w1)))) =
    listeners w1.
Proof.
  intros w1.
  assert (wf w1) as Hwf.
  { apply (wf_step (ASubscribe theme 7)), wf_no_listeners. }
  split; [exact Hwf|].
  apply (subscribe_unsubscribe_round_trip locale 3 w1 Hwf).
Defined.

(** X3.  The unsubscribe action is idempotent, and calling it for a closure
    that is not registered changes nothing. *)
Theorem unsubscribe_idempotent (h : nat) (w : World) :
  snd (unsubscribe h (snd (unsubscribe h w))) = snd (unsubscribe h w) ∧
  (h ∉ l_id <$> listeners w → snd (unsubscribe h w) = w).
Proof.
  split.
  - apply world_eq; try done. simpl. apply filter_all.
    intros l Hl. by apply list_elem_of_filter in Hl as [Hne _].
  - intros Hnot. apply world_eq; try done. simpl. apply filter_all.
    intros l Hl Heq. apply Hnot. rewrite <- Heq. by apply list_elem_of_fmap_2.
Qed.

(** X4.  The unsubscribe action of one subscription leaves every other
    subscription registered: the other listener is still called, once, by a
    delivery with a defined entry for its key. *)
Theorem unsubscribe_spares_others (h h' : nat) (key' : Key) (onChange' : nat)
    (event : SetGlobalsEvent) (w : World) :
  wf w → installed h' key' onChange' w → h ≠ h' →
  is_undefined (get_prop (globals (detail event)) (key_name key')) = false →
  let w' := snd (unsubscribe h w) in
  installed h' key' onChange' w' ∧
  notify_count h' (snd (dispatchEvent event w')) = S (notify_count h' w').
Proof.
  intros Hwf Hin Hne Hdef w'.
  assert (wf w') as Hwf' by apply (wf_step (AUnsubscribe h)), Hwf.
  assert (installed h' key' onChange' w') as Hin'.
  { apply (installed_step h' key' onChange' (AUnsubscribe h)); [done| |done].
    congruence. }
  split; [done|].
  rewrite (installed_delivery h' key' onChange' event w' Hwf' Hin'), Hdef. lia.
Qed.

Lemma unsubscribe_spares_others_witness :
  let w := run [ASubscribe theme 7; ASubscribe theme 8] light_window in
  let dark := event_of {[ "theme" := VStr "dark" ]} in
  let w' := snd (unsubscribe 0 w) in
  wf w ∧ installed 1 theme 8 w ∧
  notify_count 1 (snd (dispatchEvent dark w')) = 1.
Proof.
  intros w dark w'.
  assert (wf w) as Hwf by apply wf_run, wf_no_listeners.
  assert (installed 1 theme 8 w) as Hin.
  { unfold installed. vm_compute listeners. apply elem_of_cons. right.
    apply elem_of_cons. by left. }
  split; [exact Hwf|]. split; [exact Hin|].
  apply (unsubscribe_spares_others 0 1 theme 8 dark w Hwf Hin);
    [lia | reflexivity].
Defined.

(** X5.  Exactly when a listener is called: for a registered subscription
    on [key], one delivery calls its [onChange] once if the event's entry
    for [key] is anything but [undefined] (so also for [null], [false], [0]
    and the empty string), and not at all if the entry is [undefined] or
    missing. *)
Theorem notified_iff_entry_defined (h : nat) (key : Key) (onChange : nat)
    (event : SetGlobalsEvent) (w : World) :
  wf w → installed h key onChange w →
  notify_count h (snd (dispatchEvent event w)) =
  notify_count h w +
  match globals (detail event) !! key_name key with
  | None | Some VUndefined => 0
  | Some _ => 1
  end.
Proof.
  intros Hwf Hin. rewrite (installed_delivery h key onChange event w Hwf Hin).
  unfold get_prop.
  by destruct (globals (detail event) !! key_name key) as [[]|].
Qed.

Lemma notified_iff_entry_defined_witness :
  let w := snd (subscribe maxHeight 7 light_window) in
  wf w ∧ installed 0 maxHeight 7 w ∧
  notify_count 0
    (snd (dispatchEvent (event_of {[ "maxHeight" := VNum 0 ]}) w)) = 1 ∧
  notify_count 0
    (snd (dispatchEvent (event_of {[ "theme" := VStr "dark" ]}) w)) = 0.
Proof.
  intros w.
  assert (wf w) as Hwf.
  { apply (wf_step (ASubscribe maxHeight 7)), wf_no_listeners. }
  assert (installed 0 maxHeight 7 w) as Hin.
  { apply (subscribe_installed maxHeight 7 light_window), wf_no_listeners. }
  split; [exact Hwf|]. split; [exact Hin|]. split.
  - etrans; [apply (notified_iff_entry_defined 0 maxHeight 7
                      (event_of {[ "maxHeight" := VNum 0 ]}) w Hwf Hin)|].
    reflexivity.
  - etrans; [apply (notified_iff_entry_defined 0 maxHeight 7
                      (event_of {[ "theme" := VStr "dark" ]}) w Hwf Hin)|].
    reflexivity.
Defined.

(** ** More on deliveries *)

(** X6.  One delivery calls, in registration order, the [onChange] of every
    registered listener whose key has an entry other than [undefined], each
    once, and changes nothing else in the window. *)
Theorem delivery_in_registration_order (event : SetGlobalsEvent) (w : World) :
  let w' := snd (dispatchEvent event w) in
  trace w' =
    trace w ++
    ((λ l, Notify (l_id l) (l_onChange l)) <$>
     filter (λ l, get_prop (globals (detail event)) (key_name (l_key l))
                  ≠ VUndefined) (listeners w)) ∧
  listeners w' = listeners w ∧ openai w' = openai w.
Proof.
  intros w'. subst w'. rewrite dispatchEvent_trace.
  destruct (dispatchEvent_rest event w) as (Ho & Hl & _).
  split; [|by split]. f_equal. unfold fired. f_equal.
  apply list_filter_iff. intros l. unfold fires.
  by destruct (get_prop _ _).
Qed.

(** X7.  A delivery whose [globals] holds no defined value for any key of
    [OpenAiGlobals] (an empty object, or entries under other names only)
    changes nothing, whoever is subscribed. *)
Theorem delivery_without_known_entry_is_silent (event : SetGlobalsEvent)
    (w : World) :
  (∀ k, get_prop (globals (detail event)) (key_name k) = VUndefined) →
  snd (dispatchEvent event w) = w.
Proof.
  intros Hnone. destruct (dispatchEvent_rest event w) as (Ho & Hl & Hn).
  apply world_eq; try done. rewrite dispatchEvent_trace. clear Ho Hl Hn.
  assert (fired event (listeners w) = []) as ->; [|apply app_nil_r].
  induction (listeners w) as [|l ls IH]; [done|].
  rewrite fired_cons, IH. unfold fires. by rewrite Hnone.
Qed.

Lemma delivery_without_known_entry_is_silent_witness :
  let w := run [ASubscribe theme 7; ASubscribe locale 8] light_window in
  let event := event_of {[ "view" := VStr "compact" ]} in
  (∀ k, get_prop (globals (detail event)) (key_name k) = VUndefined) ∧
  snd (dispatchEvent event w) = w.
Proof.
  intros w event.
  assert (∀ k, get_prop (globals (detail event)) (key_name k) = VUndefined)
    as Hnone by (by intros []).
  split; [exact Hnone|].
  apply (delivery_without_known_entry_is_silent event w Hnone).
Defined.

(** X8.  Every call of [subscribe] makes a closure of its own: subscribing
    twice with the same key and the same [onChange] registers two
    listeners, and one delivery with a defined entry calls [onChange] once
    for each. *)
Theorem subscribing_twice_notifies_twice (key : Key) (onChange : nat)
    (event : SetGlobalsEvent) (w : World) :
  wf w →
  is_undefined (get_prop (globals (detail event)) (key_name key)) = false →
  let h1 := fst (subscribe key onChange w) in
  let w1 := snd (subscribe key onChange w) in
  let h2 := fst (subscribe key onChange w1) in
  let w2 := snd (subscribe key onChange w1) in
  let w3 := snd (dispatchEvent event w2) in
  h1 ≠ h2 ∧
  length (listeners w2) = length (listeners w) + 2 ∧
  notify_count h1 w3 = S (notify_count h1 w2) ∧
  notify_count h2 w3 = S (notify_count h2 w2).
Proof.
  intros Hwf Hdef h1 w1 h2 w2 w3.
  assert (wf w1) as Hwf1 by apply subscribe_wf, Hwf.
  assert (wf w2) as Hwf2 by apply subscribe_wf, Hwf1.
  assert (installed h1 key onChange w1) as Hin1
    by apply subscribe_installed, Hwf.
  assert (installed h2 key onChange w2) as Hin2
    by apply subscribe_installed, Hwf1.
  assert (h1 ≠ h2) as Hne.
  { subst h1 h2 w1. rewrite !subscribe_fst.
    destruct (subscribe_rest key onChange w) as (_ & -> & _). lia. }
  assert (installed h1 key onChange w2) as Hin12.
  { apply (installed_step h1 key onChange (ASubscribe key onChange) w1);
      done. }
  split; [done|]. split.
  - subst w2 w1. rewrite !subscribe_listeners by done.
    rewrite !length_app. simpl. lia.
  - subst w3.
    rewrite (installed_delivery h1 key onChange event w2 Hwf2 Hin12).
    rewrite (installed_delivery h2 key onChange event w2 Hwf2 Hin2).
    rewrite Hdef. lia.
Qed.

Lemma subscribing_twice_notifies_twice_witness :
  let dark := event_of {[ "theme" := VStr "dark" ]} in
  let w2 := run [ASubscribe theme 7; ASubscribe theme 7] light_window in
  wf light_window ∧
  is_undefined (get_prop (globals (detail dark)) (key_name theme)) = false ∧
  trace (snd (dispatchEvent dark w2)) = [Notify 0 7; Notify 1 7] ∧
  notify_count 1 (snd (dispatchEvent dark w2)) = S (notify_count 1 w2).
Proof.
  intros dark w2.
  split; [apply wf_no_listeners|]. split; [reflexivity|].
  split; [reflexivity|].
  apply (subscribing_twice_notifies_twice theme 7 dark light_window
           (wf_no_listeners _ _ _) eq_refl).
Defined.

(** X9.  Closure identities stay unique: from a window without listeners,
    whatever the sequence of subscriptions, unsubscriptions, reads, tool
    calls, deliveries and host writes, no [handleSetGlobal] closure is ever
    registered twice. *)
Theorem listeners_never_registered_twice (o : option OpenAi) (n : nat)
    (t : list Obs) (acts : list Action) :
  NoDup (l_id <$> listeners
           (run acts {| openai := o; listeners := [];
                        next_closure := n; trace := t |})).
Proof. apply (wf_run acts), wf_no_listeners. Qed.

(** ** More on reads *)

(** X10.  [getSnapshot] throws exactly when [window.openai] is absent; with
    the host present, a slot the bag does not hold reads as [undefined]
    (not as [null], and without throwing). *)
Theorem getSnapshot_throws_iff_no_host (key : Key) (w : World) :
  ((∃ e, fst (getSnapshot key w) = Throw e) ↔ openai w = None) ∧
  (∀ host, openai w = Some host → bag host !! key_name key = None →
     fst (getSnapshot key w) = Normal VUndefined).
Proof.
  unfold getSnapshot, read, mbind, M_bind.
  destruct (openai w) as [host|]; simpl; split.
  - split; [by intros [e He] | done].
  - intros host' [= <-] Hmiss. unfold get_prop. by rewrite Hmiss.
  - split; [done | by eexists].
  - done.
Qed.

(** X11.  The tool accessors read their own slot, as it is: [useToolInput]
    the property ["toolInput"], [useToolOutput] the property
    ["toolOutput"], [useToolResponseMetadata] the property
    ["toolResponseMetadata"]; nothing is validated or converted, so a
    missing output reads as [undefined] and a [null] one as [null]. *)
Theorem tool_accessors_read_their_slot (w : World) (host : OpenAi) :
  openai w = Some host →
  fst (store_getSnapshot useToolInput w) =
    Normal (default VUndefined (bag host !! "toolInput")) ∧
  fst (store_getSnapshot useToolOutput w) =
    Normal (default VUndefined (bag host !! "toolOutput")) ∧
  fst (store_getSnapshot useToolResponseMetadata w) =
    Normal (default VUndefined (bag host !! "toolResponseMetadata")).
Proof.
  intros Hhost. simpl. unfold getSnapshot, read, mbind, M_bind.
  by rewrite Hhost.
Qed.

Lemma tool_accessors_read_their_slot_witness :
  fst (store_getSnapshot useToolInput output_window) = Normal VUndefined ∧
  fst (store_getSnapshot useToolOutput output_window) = Normal (VObj 5) ∧
  fst (store_getSnapshot useToolResponseMetadata output_window) =
    Normal VUndefined.
Proof.
  apply (tool_accessors_read_their_slot output_window
           {| bag := {[ "toolOutput" := VObj 5 ]}; callTool := None |}
           eq_refl).
Defined.

(** X12.  The three tool accessors do not disturb one another: with all
    three subscribed, a delivery that carries a defined [toolOutput] only
    calls the [onChange] of [useToolOutput] once and those of
    [useToolInput] and [useToolResponseMetadata] not at all. *)
Theorem tool_accessors_are_isolated (cb1 cb2 cb3 : nat) (v : JsValue)
    (w : World) :
  wf w → v ≠ VUndefined →
  let h1 := fst (store_subscribe useToolInput cb1 w) in
  let w1 := snd (store_subscribe useToolInput cb1 w) in
  let h2 := fst (store_subscribe useToolOutput cb2 w1) in
  let w2 := snd (store_subscribe useToolOutput cb2 w1) in
  let h3 := fst (store_subscribe useToolResponseMetadata cb3 w2) in
  let w3 := snd (store_subscribe useToolResponseMetadata cb3 w2) in
  let w4 := snd (dispatchEvent (event_of {[ "toolOutput" := v ]}) w3) in
  notify_count h1 w4 = notify_count h1 w3 ∧
  notify_count h2 w4 = S (notify_count h2 w3) ∧
  notify_count h3 w4 = notify_count h3 w3.
Proof.
  intros Hwf Hv h1 w1 h2 w2 h3 w3 w4.
  assert (wf w1) as Hwf1 by apply subscribe_wf, Hwf.
  assert (wf w2) as Hwf2 by apply subscribe_wf, Hwf1.
  assert (wf w3) as Hwf3 by apply subscribe_wf, Hwf2.
  assert (installed h1 toolInput cb1 w3) as Hin1.
  { apply (installed_step _ _ _ (ASubscribe toolResponseMetadata cb3) w2);
      [done|done|].
    apply (installed_step _ _ _ (ASubscribe toolOutput cb2) w1); [done|done|].
    apply subscribe_installed, Hwf. }
  assert (installed h2 toolOutput cb2 w3) as Hin2.
  { apply (installed_step _ _ _ (ASubscribe toolResponseMetadata cb3) w2);
      [done|done|].
    apply subscribe_installed, Hwf1. }
  assert (installed h3 toolResponseMetadata cb3 w3) as Hin3
    by apply subscribe_installed, Hwf2.
  subst w4.
  rewrite (installed_delivery h1 toolInput cb1 _ w3 Hwf3 Hin1).
  rewrite (installed_delivery h2 toolOutput cb2 _ w3 Hwf3 Hin2).
  rewrite (installed_delivery h3 toolResponseMetadata cb3 _ w3 Hwf3 Hin3).
  unfold get_prop; simpl.
  rewrite lookup_singleton_eq, !lookup_singleton_ne by done. simpl.
  destruct v; try done; simpl; lia.
Qed.

Lemma tool_accessors_are_isolated_witness :
  let w3 := run [ASubscribe toolInput 1; ASubscribe toolOutput 2;
                 ASubscribe toolResponseMetadata 3] light_window in
  let w4 := snd (dispatchEvent (event_of {[ "toolOutput" := VNull ]}) w3) in
  wf light_window ∧ VNull ≠ VUndefined ∧
  trace w4 = [Notify 1 2] ∧
  notify_count 1 w4 = S (notify_count 1 w3).
Proof.
  intros w3 w4.
  split; [apply wf_no_listeners|]. split; [done|]. split; [reflexivity|].
  apply (tool_accessors_are_isolated 1 2 3 VNull light_window
           (wf_no_listeners _ _ _)).
  done.
Defined.

(** ** More on [refreshTool] *)

(** X13.  When [refreshTool] fails or hangs.  Its promise rejects in three
    cases only: [window.openai] has no [callTool] (a [TypeError]), the
    host's [callTool] throws, or the promise it returned rejects; in the
    last two the reason is the host's own.  It never settles exactly when
    the host's promise never settles: there is no timeout. *)
Theorem refreshTool_failure_cases (name : string)
    (args : gmap string JsValue) (w : World) :
  (∀ e, fst (refreshTool name args w) = Rejected e ↔
     ∃ host, openai w = Some host ∧
       ((callTool host = None ∧
         e = TypeError "window.openai.callTool is not a function") ∨
        ∃ f, callTool host = Some f ∧
          (fst (f name args (bag host)) = Throws e ∨
           fst (f name args (bag host)) = Returns (Rejected e)))) ∧
  (fst (refreshTool name args w) = Pending ↔
     ∃ host f, openai w = Some host ∧ callTool host = Some f ∧
       fst (f name args (bag host)) = Returns Pending).
Proof.
  unfold refreshTool, read, mbind, M_bind.
  destruct (openai w) as [host|]; simpl.
  2:{ split; [intros e|]; split; try done.
      - by intros (host & [=] & _).
      - by intros (host & f & [=] & _). }
  destruct (callTool host) as [f|] eqn:Hf; simpl.
  2:{ split; [intros e|]; split.
      - intros [= <-]. exists host. split; [done|]. by left.
      - intros (host' & [= <-] & [[_ ->] | (f & Hf' & _)]); [done|].
        congruence.
      - done.
      - intros (host' & f & [= <-] & Hf' & _). congruence. }
  destruct (f name args (bag host)) as [r bag'] eqn:Hr; simpl.
  split; [intros e|]; split.
  - intros He. exists host. split; [done|]. right. exists f. split; [done|].
    rewrite Hr; simpl. destruct r as [e'|[v|e'|]]; simpl in He;
      try done; injection He as ->; auto.
  - intros (host' & [= <-] & [[Hnone _] | (f' & Hf' & Hcase)]);
      [congruence|].
    assert (f' = f) as -> by congruence. rewrite Hr in Hcase; simpl in Hcase.
    by destruct Hcase as [-> | ->].
  - intros Hp. exists host, f. split; [done|]. split; [done|].
    rewrite Hr; simpl. by destruct r as [e'|[v|e'|]].
  - intros (host' & f' & [= <-] & Hf' & Hcase).
    assert (f' = f) as -> by congruence. rewrite Hr in Hcase; simpl in Hcase.
    by rewrite Hcase.
Qed.

(** X14.  [refreshTool] signals no subscriber and registers nothing: the
    listener list and every subscriber's notification count are as before,
    and at most one call, to [callTool], has left the library.  A new tool
    output reaches subscribers only through a later delivery. *)
Theorem refreshTool_never_notifies (name : string)
    (args : gmap string JsValue) (h : nat) (w : World) :
  let w' := snd (refreshTool name args w) in
  listeners w' = listeners w ∧
  notify_count h w' = notify_count h w ∧
  (trace w' = trace w ∨ trace w' = trace w ++ [CallTool name args]).
Proof.
  intros w'. subst w'.
  destruct (refreshTool_rest name args w) as (Hl & _ & Ht).
  split; [done|]. split; [|done].
  change (snd (refreshTool name args w)) with (step (ARefreshTool name args) w).
  rewrite step_notify_count. lia.
Qed.

(** ** The build script *)

(** X15.  What the bundler is told to leave out: a package is in
    [external] exactly when it is [react] or a key of [dependencies] or of
    [peerDependencies]; a [package.json] with neither field gives [react]
    alone. *)
Theorem external_membership (pkg : PackageJson) (x : string) :
  (x ∈ external pkg ↔
     x = "react" ∨
     (∃ deps v, dependencies pkg = Some deps ∧ (x, v) ∈ deps) ∨
     (∃ peers v, peerDependencies pkg = Some peers ∧ (x, v) ∈ peers)) ∧
  (dependencies pkg = None → peerDependencies pkg = None →
   external pkg = ["react"]).
Proof.
  unfold external, Object_keys. split.
  - rewrite elem_of_cons, elem_of_app, !list_elem_of_fmap.
    split.
    + intros [-> | [([y v] & -> & Hin) | ([y v] & -> & Hin)]]; [by left | |].
      * right; left. destruct (dependencies pkg) as [deps|]; simpl in Hin.
        -- by exists deps, v.
        -- by apply elem_of_nil in Hin.
      * right; right. destruct (peerDependencies pkg) as [peers|];
          simpl in Hin.
        -- by exists peers, v.
        -- by apply elem_of_nil in Hin.
    + intros [-> | [(deps & v & -> & Hin) | (peers & v & -> & Hin)]].
      * by left.
      * right; left. by exists (x, v).
      * right; right. by exists (x, v).
  - by intros -> ->.
Qed.


